(** * Avalam-engine-bots: the diagonal board renderer, the Checkers board
      set-up and the cached legal-move query.

    Sources embedded here:
    - [GameEngines/Checkers/repr.py]                 ([_repr])
    - [GameEngines/Checkers/PythonEngine/utils.py]   ([board_setup])
    - [GameEngines/Avalam/BoardState.py]             (the [cache_moves] wrapping)

    Python strings are represented by their UTF-8 bytes in [string]; numpy
    arrays of rank two by the list of their rows. *)

From Stdlib Require Import String Ascii List ZArith QArith Bool Lia.
From Stdlib Require Import DecimalString DecimalZ DecimalPos.
Import ListNotations.

Local Open Scope string_scope.
Local Open Scope list_scope.
Local Open Scope Z_scope.

(** Concatenation of Python strings, [s + t]. *)
Infix "+++" := String.append (at level 60, right associativity).

(** ** Exceptions and the error monad *)

(** The exceptions that matter to the renderer.  [OverflowError] and
    [ValueError] are what Python's [int] raises on an infinite, respectively
    a NaN, float; [MalformedBoardError] is the error kind the specification
    names for the renderer. *)
Inductive exn : Type :=
| OverflowError
| ValueError
| MalformedBoardError.

Inductive Exc (A : Type) : Type :=
| Ok (a : A)
| Raise (e : exn).

Arguments Ok {A} a.
Arguments Raise {A} e.

Definition bind {A B : Type} (m : Exc A) (k : A -> Exc B) : Exc B :=
  match m with
  | Ok a => k a
  | Raise e => Raise e
  end.

Notation "x <- m ;; k" := (bind m (fun x => k))
  (at level 61, m at next level, right associativity).

(** [l.append(x)] on a Python list. *)
Definition append {A : Type} (l : list A) (x : A) : list A := l ++ [x].

(** ** Cells and arrays *)

(** A cell of a board array: a float64 is NaN, an infinity or a finite
    number, and every finite float64 is a rational.  Arrays of integer
    dtype only hold [Fin] cells with an integral value. *)
Inductive cell : Type :=
| NaN
| Inf (negative : bool)
| Fin (q : Q).

Definition Num (z : Z) : cell := Fin (inject_Z z).

(** The comparisons of a cell with an integer literal, as IEEE 754 and numpy
    define them: every ordered comparison and [==] with NaN is false, [!=]
    with NaN is true. *)
Definition gtb (v : cell) (k : Z) : bool :=
  match v with
  | NaN => false
  | Inf negative => negb negative
  | Fin q => negb (Qle_bool q (inject_Z k))
  end.

Definition ltb (v : cell) (k : Z) : bool :=
  match v with
  | NaN => false
  | Inf negative => negative
  | Fin q => negb (Qle_bool (inject_Z k) q)
  end.

Definition eqb (v : cell) (k : Z) : bool :=
  match v with
  | NaN => false
  | Inf _ => false
  | Fin q => Qeq_bool q (inject_Z k)
  end.

Definition neb (v : cell) (k : Z) : bool := negb (eqb v k).

(** Python's [int(v)]: truncation towards zero; it raises on the
    non-finite values. *)
Definition int (v : cell) : Exc Z :=
  match v with
  | NaN => Raise ValueError
  | Inf _ => Raise OverflowError
  | Fin q => Ok (Z.quot (Qnum q) (Z.pos (Qden q)))
  end.

(** A rank-two [np.ndarray], row by row. *)
Definition ndarray : Type := list (list cell).

(** [shape] of a rank-two array. *)
Definition shape (a : ndarray) : nat * nat :=
  (length a, length (hd [] a)).

(** Every row has the length [shape] announces: numpy arrays always do. *)
Definition rectangular (a : ndarray) : Prop :=
  Forall (fun r => length r = snd (shape a)) a.

(** The cells [a[0][j]], [a[1][j+1]], ... as long as they exist. *)
Fixpoint diag_from (j : nat) (rows : list (list cell)) : list cell :=
  match rows with
  | [] => []
  | r :: rs =>
      match nth_error r j with
      | Some c => c :: diag_from (S j) rs
      | None => []
      end
  end.

(** [ndarray.diagonal(offset)]: the cells [a[i][i+offset]]; a positive offset
    is above the main diagonal, a negative one below. *)
Definition diagonal (a : ndarray) (offset : Z) : list cell :=
  if 0 <=? offset
  then diag_from (Z.to_nat offset) a
  else diag_from 0 (skipn (Z.to_nat (- offset)) a).

(** ** Strings *)

(** [str(n)] of a Python integer. *)
Definition str (z : Z) : string := NilZero.string_of_int (Z.to_int z).

(** [sep.join(l)]. *)
Definition join (sep : string) (l : list string) : string :=
  String.concat sep l.

(** The escape character, [\033]. *)
Definition ESC : ascii := ascii_of_nat 27.

(** The line feed, [\n]. *)
Definition LF : ascii := ascii_of_nat 10.

(** The colour codes of [colorama.Fore] that the renderer uses. *)
Module Fore.
Definition LIGHTBLUE_EX : string := String ESC "[94m".
Definition LIGHTYELLOW_EX : string := String ESC "[93m".
Definition RESET : string := String ESC "[39m".
End Fore.

(** [█], FULL BLOCK, in UTF-8. *)
Definition BLOCK : string :=
  String (ascii_of_nat 226) (String (ascii_of_nat 150)
    (String (ascii_of_nat 136) EmptyString)).

(** [range(n)]. *)
Definition range (n : nat) : list Z := map Z.of_nat (seq 0 n).

(** [s.split('\n')]. *)
Fixpoint split_lines (s : string) : list string :=
  match s with
  | EmptyString => [EmptyString]
  | String c s' =>
      if Ascii.eqb c LF then EmptyString :: split_lines s'
      else match split_lines s' with
           | l :: ls => String c l :: ls
           | [] => [String c EmptyString]
           end
  end.

(** ** The board state *)

(** The object the renderer receives: it reads the attribute [board] and
    nothing else; [attrs] stands for whatever else the object carries. *)
Record BoardState (A : Type) : Type := mkBoardState {
  board : ndarray;
  attrs : A
}.

Arguments mkBoardState {A} board attrs.
Arguments board {A} _.
Arguments attrs {A} _.

(** ** GameEngines/Checkers/repr.py *)

(** The body of [for v in line]: what one cell appends to [val_acc]. *)
Definition cell_step (val_acc : list string) (v : cell) : Exc (list string) :=
  if gtb v 0 then
    n <- int v ;;
    Ok (append val_acc (Fore.LIGHTBLUE_EX +++ str n +++ Fore.RESET))
  else if ltb v 0 then
    n <- int v ;;
    Ok (append val_acc (Fore.LIGHTYELLOW_EX +++ str (Z.abs n) +++ Fore.RESET))
  else if eqb v 0 then
    Ok (append val_acc " ")
  else
    Ok val_acc.

(** The loop [for v in line]. *)
Fixpoint cells_loop (line : list cell) (val_acc : list string)
  : Exc (list string) :=
  match line with
  | [] => Ok val_acc
  | v :: rest =>
      val_acc' <- cell_step val_acc v ;;
      cells_loop rest val_acc'
  end.

(** The two assignments to [line]: the diagonal read, then the filter. *)
Definition row_diagonal (b : ndarray) (i : Z) : list cell :=
  diagonal b (4 - i).

Definition row_cells (b : ndarray) (i : Z) : list cell :=
  filter (fun v => neb v 3) (row_diagonal b i).

(** What the last two statements of the loop body leave in [line_acc[-1]]. *)
Definition frame (i : Z) (val_acc : list string) : string :=
  let last := join (" " +++ BLOCK +++ " ") val_acc in
  str i +++ " " +++
    (if i mod 2 =? 1 then last +++ " " +++ BLOCK else BLOCK +++ " " +++ last).

(** The body of [for i in range(8)]. *)
Definition row_step (b : ndarray) (line_acc : list string) (i : Z)
  : Exc (list string) :=
  let line := row_diagonal b i in
  let line := filter (fun v => neb v 3) line in
  val_acc <- cells_loop line [] ;;
  Ok (append line_acc (frame i val_acc)).

(** The loop [for i in range(8)]. *)
Fixpoint rows_loop (b : ndarray) (rows : list Z) (line_acc : list string)
  : Exc (list string) :=
  match rows with
  | [] => Ok line_acc
  | i :: rest =>
      line_acc' <- row_step b line_acc i ;;
      rows_loop b rest line_acc'
  end.

Definition index : string :=
  "  " +++ join " " (map str (range 8)).

(** The list [line_acc] when the outer loop is over. *)
Definition line_acc {A : Type} (self : BoardState A) : Exc (list string) :=
  rows_loop (board self) (range 8) [index].

Definition _repr {A : Type} (self : BoardState A) : Exc string :=
  lines <- line_acc self ;;
  Ok (join (String LF EmptyString) lines).

(** ** GameEngines/Checkers/PythonEngine/utils.py *)

Definition board_setup (_ : unit) : ndarray :=
  let n := NaN in
  let o := Num 1 in
  let z := Num 0 in
  let m := Num (-1) in
  [ [ n; n; n; o; o; n; n; n];
    [ n; n; z; o; o; o; n; n];
    [ n; m; z; z; o; o; o; n];
    [ m; m; m; z; z; o; o; o];
    [ n; m; m; m; z; z; o; n];
    [ n; n; m; m; m; z; n; n];
    [ n; n; n; m; m; n; n; n] ].

(** The number of cells of an array that satisfy [p]. *)
Definition count_cells (p : cell -> bool) (a : ndarray) : nat :=
  length (filter p (concat a)).

Definition is_nan (v : cell) : bool :=
  match v with NaN => true | _ => false end.

Definition is_inf (v : cell) : bool :=
  match v with Inf _ => true | _ => false end.

(** No cell of the array is an infinity. *)
Definition finite_board (a : ndarray) : bool :=
  forallb (forallb (fun v => negb (is_inf v))) a.

(** The glyph of a cell as the renderer's contract words it: a coloured
    digit for a positive value, a coloured digit of the absolute value for a
    negative one, a blank for zero; nothing for a cell that is none of
    these. *)
Definition glyph_spec (v : cell) : list string :=
  match v with
  | Fin q =>
      let n := Z.quot (Qnum q) (Z.pos (Qden q)) in
      match Qcompare q 0 with
      | Gt => [Fore.LIGHTBLUE_EX +++ str n +++ Fore.RESET]
      | Lt => [Fore.LIGHTYELLOW_EX +++ str (Z.abs n) +++ Fore.RESET]
      | Eq => [" "]
      end
  | _ => []
  end.

(** ** GameEngines/Avalam/BoardState.py *)

Module MoveCache.

(** What a call of the wrapped operation does: it returns a value or raises. *)
Inductive outcome (E A : Type) : Type :=
| Returned (a : A)
| Raised (e : E).

Arguments Returned {E A} a.
Arguments Raised {E A} e.

Section Cache.

(** The board states (grid and side to move), the move descriptors and the
    errors of the rules engine; the cache looks into none of them, it only
    compares board states. *)
Variable State : Type.
Variable State_eq_dec : forall b1 b2 : State, {b1 = b2} + {b1 <> b2}.
Variable Move : Type.
Variable Error : Type.

(** The entries, most recently used first: the key is the content of the
    board state, the value the moves computed for it. *)
Definition cache : Type := list (State * list Move).

Definition same_key (b : State) (entry : State * list Move) : bool :=
  if State_eq_dec (fst entry) b then true else false.

Definition lookup (c : cache) (b : State) : option (list Move) :=
  match find (same_key b) c with
  | Some entry => Some (snd entry)
  | None => None
  end.

Definition forget (c : cache) (b : State) : cache :=
  filter (fun entry => negb (same_key b entry)) c.

(** Modelled from the spec: [cache_moves] of [GameEngines._generic], a module
    that is not among the sources.  The wrapper answers from the cache when the
    key of the receiver is there and otherwise calls the wrapped operation; a
    value is stored under the content of the board state, an error is passed
    on and nothing is stored; the cache holds at most [capacity] entries and
    evicts the least recently used one. *)
Definition cache_moves (capacity : nat)
    (get_legal_moves : State -> outcome Error (list Move))
    (c : cache) (b : State) : outcome Error (list Move) * cache :=
  match lookup c b with
  | Some moves => (Returned moves, (b, moves) :: forget c b)
  | None =>
      match get_legal_moves b with
      | Returned moves => (Returned moves, firstn capacity ((b, moves) :: c))
      | Raised e => (Raised e, c)
      end
  end.

(** [BoardState.get_legal_moves = cache_moves(BoardState.get_legal_moves)]:
    the method of the class once the module is loaded, [raw_get_legal_moves]
    being the method of [RawAvalamState] it replaces.  The cache the wrapper
    keeps goes in and comes out of every call. *)
Definition get_legal_moves (capacity : nat)
    (raw_get_legal_moves : State -> outcome Error (list Move))
    : cache -> State -> outcome Error (list Move) * cache :=
  cache_moves capacity raw_get_legal_moves.

(** The cache after the method has been called on each board state of
    [calls] in turn, starting from [c]. *)
Fixpoint after_calls (capacity : nat)
    (raw_get_legal_moves : State -> outcome Error (list Move))
    (c : cache) (calls : list State) : cache :=
  match calls with
  | [] => c
  | b :: rest =>
      after_calls capacity raw_get_legal_moves
        (snd (get_legal_moves capacity raw_get_legal_moves c b)) rest
  end.

(** Two results are the same: the same error, or collections with the same
    members. *)
Definition same_result (r1 r2 : outcome Error (list Move)) : Prop :=
  match r1, r2 with
  | Returned m1, Returned m2 => forall m, In m m1 <-> In m m2
  | Raised e1, Raised e2 => e1 = e2
  | _, _ => False
  end.

(** Every entry holds what the wrapped operation returns for its key. *)
Definition consistent (get_legal_moves : State -> outcome Error (list Move))
    (c : cache) : Prop :=
  forall b moves, In (b, moves) c -> get_legal_moves b = Returned moves.

End Cache.

Arguments consistent {State Move Error}.
Arguments cache_moves {State} State_eq_dec {Move Error}.
Arguments get_legal_moves {State} State_eq_dec {Move Error}.
Arguments after_calls {State} State_eq_dec {Move Error}.
Arguments same_result {Move Error}.

End MoveCache.

(** ** Notions used to state the properties *)

(** [a[r][c]], when the indices are in range. *)
Definition cell_at (a : ndarray) (r c : nat) : option cell :=
  match nth_error a r with
  | Some row => nth_error row c
  | None => None
  end.

(** The printed row [i] of a board on which the renderer returns. *)
Definition content_line (b : ndarray) (i : Z) : string :=
  frame i (flat_map glyph_spec (row_cells b i)).

(** The string holds no line feed. *)
Fixpoint no_lf (s : string) : bool :=
  match s with
  | EmptyString => true
  | String c s' => negb (Ascii.eqb c LF) && no_lf s'
  end.

(** [l[n] = x] on a list, for an index in range. *)
Fixpoint update {X : Type} (l : list X) (n : nat) (x : X) : list X :=
  match l, n with
  | [], _ => []
  | _ :: rest, O => x :: rest
  | y :: rest, S n' => y :: update rest n' x
  end.

(** The array after [a[r][c] = v], for indices in range. *)
Fixpoint set_cell (a : ndarray) (r c : nat) (v : cell) : ndarray :=
  match a, r with
  | [], _ => []
  | row :: rest, O => update row c v :: rest
  | row :: rest, S r' => row :: set_cell rest r' c v
  end.

(** The cells that get a glyph: the finite ones that are not 3. *)
Definition shown (v : cell) : bool :=
  match v with
  | Fin q => negb (Qeq_bool q 3)
  | _ => false
  end.

(** The cells that leave no trace in the output: NaN and 3. *)
Definition off_board (v : cell) : bool := is_nan v || eqb v 3.

(** * Properties of the renderer *)

(** ** The error monad *)

Lemma bind_Ok_inv {A B : Type} (m : Exc A) (k : A -> Exc B) (b : B) :
  bind m k = Ok b -> exists a, m = Ok a /\ k a = Ok b.
Proof.
  destruct m as [a | e]; simpl; intros H.
  - exists a; split; [reflexivity | exact H].
  - discriminate H.
Qed.

Lemma bind_Raise_inv {A B : Type} (m : Exc A) (k : A -> Exc B) (e : exn) :
  bind m k = Raise e -> m = Raise e \/ exists a, m = Ok a /\ k a = Raise e.
Proof.
  destruct m as [a | e']; simpl; intros H.
  - right; exists a; split; [reflexivity | exact H].
  - left; inversion H; reflexivity.
Qed.

(** ** One cell *)

(** The sign tests of the loop body against the three-way comparison. *)
Lemma sign_tests (q : Q) :
  match Qcompare q 0 with
  | Gt => gtb (Fin q) 0 = true
  | Lt => gtb (Fin q) 0 = false /\ ltb (Fin q) 0 = true
  | Eq => gtb (Fin q) 0 = false /\ ltb (Fin q) 0 = false /\ eqb (Fin q) 0 = true
  end.
Proof.
  destruct q as [n d].
  unfold gtb, ltb, eqb, Qcompare, Qle_bool, Qeq_bool; simpl.
  rewrite Z.mul_1_r.
  destruct n; simpl; auto.
Qed.

(** A cell that is not an infinity appends its glyph, if it has one. *)
Lemma cell_step_spec (val_acc : list string) (v : cell) :
  is_inf v = false -> cell_step val_acc v = Ok (val_acc ++ glyph_spec v).
Proof.
  destruct v as [| s | q]; simpl; intros Hv.
  - unfold cell_step; simpl. now rewrite List.app_nil_r.
  - discriminate Hv.
  - pose proof (sign_tests q) as Hs.
    unfold cell_step, glyph_spec.
    destruct (Qcompare q 0).
    + destruct Hs as (-> & -> & ->). reflexivity.
    + destruct Hs as (-> & ->). reflexivity.
    + rewrite Hs. reflexivity.
Qed.

(** The only exception the loop body can raise is the [OverflowError] of
    [int] on an infinity. *)
Lemma cell_step_Raise (val_acc : list string) (v : cell) (e : exn) :
  cell_step val_acc v = Raise e -> e = OverflowError /\ is_inf v = true.
Proof.
  destruct v as [| s | q]; intros H.
  - discriminate H.
  - unfold cell_step in H. destruct s; simpl in H; inversion H; auto.
  - rewrite cell_step_spec in H by reflexivity. discriminate H.
Qed.

(** ** The loop over the cells of a line *)

Lemma cells_loop_spec (line : list cell) (val_acc : list string) :
  forallb (fun v => negb (is_inf v)) line = true ->
  cells_loop line val_acc = Ok (val_acc ++ flat_map glyph_spec line).
Proof.
  revert val_acc.
  induction line as [| v rest IH]; intros val_acc Hfin; simpl.
  - now rewrite List.app_nil_r.
  - simpl in Hfin. apply andb_true_iff in Hfin as [Hv Hrest].
    apply negb_true_iff in Hv.
    rewrite (cell_step_spec val_acc v Hv). simpl.
    rewrite (IH _ Hrest). now rewrite <- List.app_assoc.
Qed.

Lemma cells_loop_Raise (line : list cell) (val_acc : list string) (e : exn) :
  cells_loop line val_acc = Raise e ->
  e = OverflowError /\ existsb is_inf line = true.
Proof.
  revert val_acc.
  induction line as [| v rest IH]; intros val_acc H; simpl in H.
  - discriminate H.
  - apply bind_Raise_inv in H as [H | (acc' & _ & H)].
    + apply cell_step_Raise in H as [-> Hv]. simpl. now rewrite Hv.
    + apply IH in H as [-> Hrest]. simpl. rewrite Hrest.
      split; [reflexivity | apply orb_true_r].
Qed.

(** A returned [val_acc] is the one the glyphs of the line give: a line on
    which the loop returns holds no infinity. *)
Lemma cells_loop_Ok (line : list cell) (val_acc res : list string) :
  cells_loop line val_acc = Ok res ->
  res = val_acc ++ flat_map glyph_spec line
  /\ forallb (fun v => negb (is_inf v)) line = true.
Proof.
  revert val_acc.
  induction line as [| v rest IH]; intros val_acc H; simpl in H.
  - inversion H. now rewrite List.app_nil_r.
  - apply bind_Ok_inv in H as (acc' & Hstep & Hrest).
    destruct (is_inf v) eqn:Hv.
    + destruct v as [| s | q]; try discriminate Hv.
      unfold cell_step in Hstep. destruct s; discriminate Hstep.
    + rewrite (cell_step_spec _ _ Hv) in Hstep. inversion Hstep; subst acc'.
      apply IH in Hrest as [-> Hfin]. simpl. rewrite Hv, Hfin.
      split; [now rewrite <- List.app_assoc | reflexivity].
Qed.

(** ** The loop over the rows *)

Lemma row_step_Ok (b : ndarray) (acc res : list string) (i : Z) :
  row_step b acc i = Ok res ->
  res = acc ++ [content_line b i]
  /\ forallb (fun v => negb (is_inf v)) (row_cells b i) = true.
Proof.
  unfold row_step. intros H.
  apply bind_Ok_inv in H as (va & Hloop & Hret).
  apply cells_loop_Ok in Hloop as [-> Hfin].
  inversion Hret. split; [reflexivity | exact Hfin].
Qed.

Lemma row_step_spec (b : ndarray) (acc : list string) (i : Z) :
  forallb (fun v => negb (is_inf v)) (row_cells b i) = true ->
  row_step b acc i = Ok (acc ++ [content_line b i]).
Proof.
  intros Hfin. unfold row_step.
  fold (row_cells b i). rewrite (cells_loop_spec _ _ Hfin). reflexivity.
Qed.

Lemma row_step_Raise (b : ndarray) (acc : list string) (i : Z) (e : exn) :
  row_step b acc i = Raise e -> e = OverflowError.
Proof.
  unfold row_step. intros H.
  apply bind_Raise_inv in H as [H | (va & _ & H)].
  - now apply cells_loop_Raise in H.
  - discriminate H.
Qed.

Lemma rows_loop_Ok (b : ndarray) (rows : list Z) (acc res : list string) :
  rows_loop b rows acc = Ok res ->
  res = acc ++ map (content_line b) rows
  /\ forallb (fun i => forallb (fun v => negb (is_inf v)) (row_cells b i)) rows
     = true.
Proof.
  revert acc.
  induction rows as [| i rest IH]; intros acc H; simpl in H.
  - inversion H. now rewrite List.app_nil_r.
  - apply bind_Ok_inv in H as (acc' & Hrow & Hrest).
    apply row_step_Ok in Hrow as [-> Hfin].
    apply IH in Hrest as [-> Hall].
    simpl. rewrite Hfin, Hall, <- List.app_assoc. split; reflexivity.
Qed.

Lemma rows_loop_spec (b : ndarray) (rows : list Z) (acc : list string) :
  forallb (fun i => forallb (fun v => negb (is_inf v)) (row_cells b i)) rows
    = true ->
  rows_loop b rows acc = Ok (acc ++ map (content_line b) rows).
Proof.
  revert acc.
  induction rows as [| i rest IH]; intros acc Hall; simpl.
  - now rewrite List.app_nil_r.
  - simpl in Hall. apply andb_true_iff in Hall as [Hfin Hall].
    rewrite (row_step_spec _ _ _ Hfin). simpl.
    rewrite (IH _ Hall), <- List.app_assoc. reflexivity.
Qed.

Lemma rows_loop_Raise (b : ndarray) (rows : list Z) (acc : list string)
    (e : exn) :
  rows_loop b rows acc = Raise e -> e = OverflowError.
Proof.
  revert acc.
  induction rows as [| i rest IH]; intros acc H; simpl in H.
  - discriminate H.
  - apply bind_Raise_inv in H as [H | (acc' & _ & H)].
    + now apply row_step_Raise in H.
    + now apply IH in H.
Qed.

(** ** Where the cells of a diagonal come from *)

Lemma diag_from_In (j : nat) (rows : list (list cell)) (v : cell) :
  In v (diag_from j rows) -> exists r, In r rows /\ In v r.
Proof.
  revert j.
  induction rows as [| r rs IH]; intros j H; simpl in H.
  - contradiction.
  - destruct (nth_error r j) as [c |] eqn:Hc; [| contradiction].
    destruct H as [-> | H].
    + exists r. split; [now left | now apply nth_error_In with j].
    + apply IH in H as (r' & Hr' & Hv). exists r'. split; [now right | exact Hv].
Qed.

Lemma In_skipn {A : Type} (n : nat) (l : list A) (x : A) :
  In x (skipn n l) -> In x l.
Proof.
  revert l. induction n as [| n IH]; intros [| y l] H; simpl in H; auto.
  right. now apply IH.
Qed.

Lemma diagonal_In (a : ndarray) (offset : Z) (v : cell) :
  In v (diagonal a offset) -> exists r, In r a /\ In v r.
Proof.
  unfold diagonal. destruct (0 <=? offset); intros H.
  - now apply diag_from_In in H.
  - apply diag_from_In in H as (r & Hr & Hv).
    exists r. split; [now apply In_skipn in Hr | exact Hv].
Qed.

Lemma finite_board_row_cells (b : ndarray) (i : Z) :
  finite_board b = true ->
  forallb (fun v => negb (is_inf v)) (row_cells b i) = true.
Proof.
  intros Hb. apply forallb_forall. intros v Hv.
  unfold row_cells in Hv. apply filter_In in Hv as [Hv _].
  apply diagonal_In in Hv as (r & Hr & Hv).
  unfold finite_board in Hb.
  rewrite forallb_forall in Hb. specialize (Hb r Hr).
  rewrite forallb_forall in Hb. now apply Hb.
Qed.

Lemma diag_from_nth_error (j k width : nat) (rows : list (list cell)) :
  Forall (fun r => length r = width) rows ->
  nth_error (diag_from j rows) k =
  match nth_error rows k with
  | Some r => nth_error r (j + k)
  | None => None
  end.
Proof.
  revert j k.
  induction rows as [| r rs IH]; intros j k Hrect; simpl.
  - now destruct k.
  - inversion Hrect as [| r' rs' Hr Hrs]; subst.
    destruct (nth_error r j) as [c |] eqn:Hc.
    + destruct k as [| k]; simpl.
      * now rewrite Nat.add_0_r.
      * rewrite (IH _ _ Hrs). now rewrite Nat.add_succ_r.
    + apply nth_error_None in Hc.
      assert (Hnil : nth_error (@nil cell) k = None) by now destruct k.
      rewrite Hnil.
      destruct k as [| k]; simpl.
      * symmetry. apply nth_error_None. lia.
      * destruct (nth_error rs k) as [r' |] eqn:Hr'; [| reflexivity].
        symmetry. apply nth_error_None.
        apply nth_error_In in Hr'.
        rewrite Forall_forall in Hrs. rewrite (Hrs _ Hr'). lia.
Qed.

(** On a rectangular array, cell [k] of the diagonal at [offset] is
    [a[k][k + offset]] for an offset that is not negative and
    [a[k - offset][k]] for a negative one. *)
Lemma diagonal_nth_error (a : ndarray) (offset : Z) (k : nat) :
  rectangular a ->
  nth_error (diagonal a offset) k =
  cell_at a (k + Z.to_nat (- offset)) (k + Z.to_nat offset).
Proof.
  intros Hrect. unfold rectangular in Hrect.
  unfold diagonal, cell_at.
  destruct (0 <=? offset) eqn:Hsign.
  - apply Z.leb_le in Hsign.
    rewrite (diag_from_nth_error _ _ _ _ Hrect).
    replace (Z.to_nat (- offset)) with 0%nat by lia.
    rewrite Nat.add_0_r, Nat.add_comm. reflexivity.
  - apply Z.leb_gt in Hsign.
    assert (Hskip : Forall (fun r => length r = snd (shape a))
                      (skipn (Z.to_nat (- offset)) a)).
    { apply Forall_forall. intros r Hr. apply In_skipn in Hr.
      rewrite Forall_forall in Hrect. now apply Hrect. }
    rewrite (diag_from_nth_error _ _ _ _ Hskip).
    rewrite nth_error_skipn.
    replace (Z.to_nat offset) with 0%nat by lia.
    rewrite Nat.add_0_r, Nat.add_comm. reflexivity.
Qed.

(** ** Lines of the output *)

Lemma no_lf_append (s t : string) :
  no_lf (s +++ t) = no_lf s && no_lf t.
Proof.
  induction s as [| c s IH]; simpl.
  - reflexivity.
  - now rewrite IH, andb_assoc.
Qed.

Lemma no_lf_join (sep : string) (l : list string) :
  no_lf sep = true -> forallb no_lf l = true -> no_lf (join sep l) = true.
Proof.
  intros Hsep. unfold join.
  induction l as [| s [| t l] IH]; simpl; intros Hl.
  - reflexivity.
  - now rewrite andb_true_r in Hl.
  - apply andb_true_iff in Hl as [Hs Hl].
    rewrite !no_lf_append, Hs, Hsep. simpl. apply IH. exact Hl.
Qed.

Lemma no_lf_uint (d : Decimal.uint) :
  no_lf (NilEmpty.string_of_uint d) = true.
Proof.
  induction d; simpl; auto.
Qed.

Lemma no_lf_str (z : Z) : no_lf (str z) = true.
Proof.
  unfold str, NilZero.string_of_int, NilZero.string_of_uint.
  destruct (Z.to_int z) as [d | d]; destruct d; simpl;
    auto using no_lf_uint.
Qed.

Lemma no_lf_glyph_spec (v : cell) : forallb no_lf (glyph_spec v) = true.
Proof.
  destruct v as [| s | q]; simpl; try reflexivity.
  destruct (Qcompare q 0); simpl; try reflexivity;
    rewrite !no_lf_append, no_lf_str; reflexivity.
Qed.

Lemma no_lf_glyphs (line : list cell) :
  forallb no_lf (flat_map glyph_spec line) = true.
Proof.
  induction line as [| v rest IH]; simpl.
  - reflexivity.
  - rewrite forallb_app, no_lf_glyph_spec, IH. reflexivity.
Qed.

Lemma no_lf_frame (i : Z) (val_acc : list string) :
  forallb no_lf val_acc = true -> no_lf (frame i val_acc) = true.
Proof.
  intros Hacc. unfold frame.
  assert (Hjoin : no_lf (join (" " +++ BLOCK +++ " ") val_acc) = true)
    by (apply no_lf_join; [reflexivity | exact Hacc]).
  destruct (i mod 2 =? 1);
    rewrite !no_lf_append, no_lf_str, Hjoin; reflexivity.
Qed.

Lemma no_lf_content_line (b : ndarray) (i : Z) :
  no_lf (content_line b i) = true.
Proof.
  unfold content_line. apply no_lf_frame, no_lf_glyphs.
Qed.

Lemma split_lines_no_lf (s : string) :
  no_lf s = true -> split_lines s = [s].
Proof.
  induction s as [| c s IH]; simpl; intros H.
  - reflexivity.
  - apply andb_true_iff in H as [Hc Hs].
    apply negb_true_iff in Hc. rewrite Hc, (IH Hs). reflexivity.
Qed.

Lemma split_lines_append_LF (s t : string) :
  no_lf s = true ->
  split_lines (s +++ String LF t) = s :: split_lines t.
Proof.
  induction s as [| c s IH]; simpl; intros H.
  - reflexivity.
  - apply andb_true_iff in H as [Hc Hs].
    apply negb_true_iff in Hc. rewrite Hc, (IH Hs). reflexivity.
Qed.

(** Splitting at the line feeds undoes the final [join]. *)
Lemma split_lines_join (l : list string) :
  l <> [] -> forallb no_lf l = true ->
  split_lines (join (String LF EmptyString) l) = l.
Proof.
  unfold join.
  induction l as [| s [| t l] IH]; intros Hne Hl.
  - contradiction.
  - simpl in *. rewrite andb_true_r in Hl. now apply split_lines_no_lf.
  - change (forallb no_lf (s :: t :: l)) with
      (no_lf s && forallb no_lf (t :: l)) in Hl.
    apply andb_true_iff in Hl as [Hs Hl].
    change (String.concat (String LF EmptyString) (s :: t :: l)) with
      (s +++ String LF (String.concat (String LF EmptyString) (t :: l))).
    rewrite (split_lines_append_LF _ _ Hs), IH; [reflexivity | discriminate | exact Hl].
Qed.

(** ** The whole renderer *)

(** On a board without infinities the renderer returns the header and the
    eight rows, joined by line feeds. *)
Lemma line_acc_spec {A : Type} (self : BoardState A) :
  finite_board (board self) = true ->
  line_acc self = Ok (index :: map (content_line (board self)) (range 8)).
Proof.
  intros Hfin. unfold line_acc.
  rewrite rows_loop_spec; [reflexivity |].
  apply forallb_forall. intros i _. now apply finite_board_row_cells.
Qed.

Lemma line_acc_Ok {A : Type} (self : BoardState A) (lines : list string) :
  line_acc self = Ok lines ->
  lines = index :: map (content_line (board self)) (range 8).
Proof.
  unfold line_acc. intros H. now apply rows_loop_Ok in H as [-> _].
Qed.

Lemma repr_Ok {A : Type} (self : BoardState A) (s : string) :
  _repr self = Ok s ->
  s = join (String LF EmptyString)
        (index :: map (content_line (board self)) (range 8)).
Proof.
  unfold _repr. intros H.
  apply bind_Ok_inv in H as (lines & Hlines & Hret).
  apply line_acc_Ok in Hlines as ->. now inversion Hret.
Qed.

Lemma repr_Raise {A : Type} (self : BoardState A) (e : exn) :
  _repr self = Raise e -> e = OverflowError.
Proof.
  unfold _repr, line_acc. intros H.
  apply bind_Raise_inv in H as [H | (lines & _ & H)].
  - now apply rows_loop_Raise in H.
  - discriminate H.
Qed.

Lemma no_lf_lines (b : ndarray) (rows : list Z) :
  forallb no_lf (index :: map (content_line b) rows) = true.
Proof.
  change (forallb no_lf (index :: map (content_line b) rows)) with
    (no_lf index && forallb no_lf (map (content_line b) rows)).
  replace (no_lf index) with true by reflexivity. simpl.
  induction rows as [| i rest IH]; simpl.
  - reflexivity.
  - now rewrite no_lf_content_line, IH.
Qed.

Lemma nth_error_lines (b : ndarray) (i : nat) :
  (i < 8)%nat ->
  nth_error (index :: map (content_line b) (range 8)) (S i) =
  Some (content_line b (Z.of_nat i)).
Proof.
  intros Hi.
  do 8 (destruct i as [| i]; [reflexivity |]). lia.
Qed.

Lemma glyphs_skip_nan (line : list cell) :
  flat_map glyph_spec (filter (fun v => negb (is_nan v)) line) =
  flat_map glyph_spec line.
Proof.
  induction line as [| v rest IH]; simpl.
  - reflexivity.
  - destruct v; simpl; now rewrite IH.
Qed.

Lemma eqb_true_iff (v : cell) (k : Z) :
  eqb v k = true <-> exists q, v = Fin q /\ (q == inject_Z k)%Q.
Proof.
  destruct v as [| s | q]; simpl.
  - split; [discriminate | intros (q & H & _); discriminate H].
  - split; [discriminate | intros (q & H & _); discriminate H].
  - rewrite Qeq_bool_iff. split.
    + intros H. now exists q.
    + intros (q' & H & Hq). now inversion H; subst.
Qed.

(** * The claims about the renderer *)

(** C2, as the specification words it, fails: on the board of [board_setup]
    the line read for printed row 2 is the diagonal at offset 2, not the one
    at offset 3 - 2 = 1, and the printed row is not what the diagonal at
    offset 1 would give. *)
Lemma row_offset_is_not_3_minus_i :
  let self := mkBoardState (board_setup tt) tt in
  row_diagonal (board self) 2 <> diagonal (board self) (3 - 2)
  /\ exists lines,
       line_acc self = Ok lines
       /\ nth_error lines 3 <>
          Some (frame 2 (flat_map glyph_spec
                  (filter (fun v => neb v 3) (diagonal (board self) (3 - 2))))).
Proof.
  split.
  - vm_compute. discriminate.
  - eexists. split; [vm_compute; reflexivity |].
    vm_compute. discriminate.
Qed.

(** C2, amended: for every board and every printed row [i] from 0 to 7, the
    renderer reads the diagonal at offset [4 - i]; the row printed on line
    [i + 1] of the output is made of the glyphs of that diagonal, and on a
    rectangular grid cell [k] of the diagonal is the grid cell at row
    [k + (i - 4)] and column [k + (4 - i)] (subtractions truncated at 0). *)
Theorem row_reads_diagonal_4_minus_i {A : Type} (self : BoardState A)
    (lines : list string) (i : nat) :
  (i < 8)%nat ->
  line_acc self = Ok lines ->
  row_diagonal (board self) (Z.of_nat i)
    = diagonal (board self) (4 - Z.of_nat i)
  /\ nth_error lines (S i) =
     Some (frame (Z.of_nat i)
             (flat_map glyph_spec
                (filter (fun v => neb v 3)
                   (diagonal (board self) (4 - Z.of_nat i)))))
  /\ (rectangular (board self) ->
      forall k : nat,
        nth_error (diagonal (board self) (4 - Z.of_nat i)) k =
        cell_at (board self) (k + (i - 4)) (k + (4 - i))).
Proof.
  intros Hi Hlines. split; [reflexivity | split].
  - apply line_acc_Ok in Hlines as ->.
    now rewrite nth_error_lines.
  - intros Hrect k. rewrite (diagonal_nth_error _ _ _ Hrect).
    f_equal; f_equal; lia.
Qed.

(** Printed row 2 of the initial Checkers board: the diagonal at offset 2,
    whose cell 1 is the grid cell at row 1, column 3. *)
Lemma row_reads_diagonal_4_minus_i_witness :
  let self := mkBoardState (board_setup tt) tt in
  let lines := index :: map (content_line (board self)) (range 8) in
  (2 < 8)%nat
  /\ line_acc self = Ok lines
  /\ nth_error lines 3 =
     Some (frame 2 (flat_map glyph_spec
             (filter (fun v => neb v 3) (diagonal (board self) (4 - 2)))))
  /\ rectangular (board self)
  /\ nth_error (diagonal (board self) (4 - 2)) 1 = cell_at (board self) 1 3.
Proof.
  assert (Hi : (2 < 8)%nat) by lia.
  assert (Hl : line_acc (mkBoardState (board_setup tt) tt) =
               Ok (index :: map (content_line (board_setup tt)) (range 8)))
    by (vm_compute; reflexivity).
  assert (Hr : rectangular (board_setup tt)) by repeat constructor.
  pose proof (row_reads_diagonal_4_minus_i
                (mkBoardState (board_setup tt) tt) _ 2 Hi Hl) as (_ & Hrow & Hcell).
  split; [exact Hi | split; [exact Hl | split; [exact Hrow |]]].
  split; [exact Hr | exact (Hcell Hr 1%nat)].
Defined.

(** C3, as the specification words it, fails: the grid of [board_setup] has
    7 rows and 8 columns, it is not square, and the renderer returns a
    string for it instead of raising [MalformedBoardError]. *)
Lemma non_square_board_is_rendered :
  let self := mkBoardState (board_setup tt) tt in
  shape (board self) = (7%nat, 8%nat)
  /\ fst (shape (board self)) <> snd (shape (board self))
  /\ _repr self <> Raise MalformedBoardError
  /\ exists s, _repr self = Ok s.
Proof.
  repeat split.
  - simpl. lia.
  - vm_compute. discriminate.
  - eexists. vm_compute. reflexivity.
Qed.

(** C3, amended: for every grid, square or not and of whatever size, the
    renderer does not raise [MalformedBoardError]: it returns the complete
    string, the header and the eight rows, unless the grid holds an infinity,
    in which case the only error it can raise is the [OverflowError] of
    [int]. *)
Theorem repr_never_raises_MalformedBoardError {A : Type}
    (self : BoardState A) :
  _repr self <> Raise MalformedBoardError
  /\ (_repr self =
        Ok (join (String LF EmptyString)
              (index :: map (content_line (board self)) (range 8)))
      \/ (_repr self = Raise OverflowError
          /\ finite_board (board self) = false)).
Proof.
  destruct (_repr self) as [s | e] eqn:Hrepr.
  - split; [discriminate |]. left. f_equal. now apply repr_Ok in Hrepr.
  - pose proof (repr_Raise _ _ Hrepr) as ->.
    split; [discriminate |]. right. split; [reflexivity |].
    destruct (finite_board (board self)) eqn:Hfin; [| reflexivity].
    unfold _repr in Hrepr. rewrite (line_acc_spec _ Hfin) in Hrepr.
    discriminate Hrepr.
Qed.

(** C4: the output is a function of the grid alone: two board states with
    the same grid, whatever else they carry, are rendered to the same
    string (or raise the same error). *)
Theorem repr_depends_on_board_only {A B : Type}
    (self1 : BoardState A) (self2 : BoardState B) :
  board self1 = board self2 -> _repr self1 = _repr self2.
Proof.
  intros Hboard. unfold _repr, line_acc. now rewrite Hboard.
Qed.

(** The initial Checkers board carried by two objects that differ in
    everything else. *)
Lemma repr_depends_on_board_only_witness :
  board (mkBoardState (board_setup tt) 1) =
  board (mkBoardState (board_setup tt) true)
  /\ _repr (mkBoardState (board_setup tt) 1) =
     _repr (mkBoardState (board_setup tt) true).
Proof.
  split; [reflexivity |].
  apply (repr_depends_on_board_only
           (mkBoardState (board_setup tt) 1)
           (mkBoardState (board_setup tt) true)).
  reflexivity.
Defined.

(** C5: for every board and every printed row, the cells equal to the
    sentinel value 3 are taken out of the diagonal before any glyph is made:
    the printed row consists of the glyphs of the remaining cells, none of
    which equals 3; and a NaN cell, the off-board marker of the Checkers
    boards, contributes no glyph either. *)
Theorem sentinel_cells_are_excluded {A : Type} (self : BoardState A)
    (lines : list string) (i : nat) :
  (i < 8)%nat ->
  line_acc self = Ok lines ->
  nth_error lines (S i) =
    Some (frame (Z.of_nat i)
            (flat_map glyph_spec (row_cells (board self) (Z.of_nat i))))
  /\ (forall v, In v (row_cells (board self) (Z.of_nat i)) -> eqb v 3 = false)
  /\ flat_map glyph_spec (row_cells (board self) (Z.of_nat i)) =
     flat_map glyph_spec
       (filter (fun v => negb (is_nan v))
          (row_cells (board self) (Z.of_nat i))).
Proof.
  intros Hi Hlines. split; [| split].
  - apply line_acc_Ok in Hlines as ->. now rewrite nth_error_lines.
  - intros v Hv. unfold row_cells in Hv.
    apply filter_In in Hv as [_ Hv]. now apply negb_true_iff in Hv.
  - now rewrite glyphs_skip_nan.
Qed.

(** A two-row grid filled with the sentinel 3: printed row 0 shows the two
    playing cells of its diagonal only, printed row 1 shows no cell at all. *)
Lemma sentinel_cells_are_excluded_witness :
  let b := [ [Num 3; Num 3; Num 3; Num 3; Num 2; Num 3];
             [Num 3; Num 3; Num 3; Num 3; Num 3; Num (-1)] ] in
  let lines := index :: map (content_line b) (range 8) in
  (0 < 8)%nat
  /\ line_acc (mkBoardState b tt) = Ok lines
  /\ row_diagonal b 0 = [Num 2; Num (-1)]
  /\ row_diagonal b 1 = [Num 3; Num 3]
  /\ nth_error lines 1 =
     Some (frame 0 (flat_map glyph_spec (row_cells b 0)))
  /\ nth_error lines 2 = Some (frame 1 []).
Proof.
  set (b := [ [Num 3; Num 3; Num 3; Num 3; Num 2; Num 3];
              [Num 3; Num 3; Num 3; Num 3; Num 3; Num (-1)] ]).
  assert (H0 : (0 < 8)%nat) by lia.
  assert (H1 : (1 < 8)%nat) by lia.
  assert (Hl : line_acc (mkBoardState b tt) =
               Ok (index :: map (content_line b) (range 8)))
    by (vm_compute; reflexivity).
  split; [exact H0 | split; [exact Hl |]].
  split; [reflexivity | split; [reflexivity |]].
  split.
  - exact (proj1 (sentinel_cells_are_excluded (mkBoardState b tt) _ 0 H0 Hl)).
  - exact (proj1 (sentinel_cells_are_excluded (mkBoardState b tt) _ 1 H1 Hl)).
Defined.

(** C6: on every board without an infinite cell, in particular on the fixed
    diamond board in its initial arrangement, the renderer returns a string
    whose lines are the header [  0 1 2 3 4 5 6 7] followed by exactly eight
    content lines, nine lines in all. *)
Theorem repr_header_and_eight_rows {A : Type} (self : BoardState A) :
  finite_board (board self) = true ->
  exists (s : string) (rows : list string),
    _repr self = Ok s
    /\ split_lines s = "  0 1 2 3 4 5 6 7" :: rows
    /\ length rows = 8%nat
    /\ length (split_lines s) = 9%nat.
Proof.
  intros Hfin.
  exists (join (String LF EmptyString)
            (index :: map (content_line (board self)) (range 8))).
  exists (map (content_line (board self)) (range 8)).
  split.
  - unfold _repr. now rewrite (line_acc_spec _ Hfin).
  - rewrite split_lines_join; [| discriminate | apply no_lf_lines].
    repeat split.
Qed.

(** The initial Checkers board. *)
Lemma repr_header_and_eight_rows_witness :
  finite_board (board (mkBoardState (board_setup tt) tt)) = true
  /\ exists (s : string) (rows : list string),
       _repr (mkBoardState (board_setup tt) tt) = Ok s
       /\ split_lines s = "  0 1 2 3 4 5 6 7" :: rows
       /\ length rows = 8%nat
       /\ length (split_lines s) = 9%nat.
Proof.
  split; [reflexivity |].
  apply (repr_header_and_eight_rows (mkBoardState (board_setup tt) tt)).
  reflexivity.
Defined.



Lemma cells_loop_skip_nan (line : list cell) (val_acc : list string) :
  cells_loop (filter (fun v => negb (is_nan v)) line) val_acc =
  cells_loop line val_acc.
Proof.
  revert val_acc.
  induction line as [| v rest IH]; intros val_acc.
  - reflexivity.
  - destruct v as [| s | q]; cbn [filter is_nan negb].
    + cbn [cells_loop]. change (cell_step val_acc NaN) with (Ok val_acc).
      cbn [bind]. apply IH.
    + cbn [cells_loop]. destruct (cell_step val_acc (Inf s)); cbn [bind];
        [apply IH | reflexivity].
    + cbn [cells_loop]. destruct (cell_step val_acc (Fin q)); cbn [bind];
        [apply IH | reflexivity].
Qed.

Lemma nan_survives_filter (line : list cell) :
  filter is_nan (filter (fun v => neb v 3) line) = filter is_nan line.
Proof.
  induction line as [| v rest IH]; [reflexivity |].
  destruct v as [| s | q].
  - cbn [filter neb eqb negb is_nan]. now rewrite IH.
  - exact IH.
  - cbn [filter]. destruct (neb (Fin q) 3); cbn [filter is_nan]; exact IH.
Qed.

(** C9: in every printed row of every board, the renderer's filter
    [line != 3] takes away the cells whose value equals 3 and no other; the
    NaN cells of the diagonal all pass it, then fail each of the tests
    [v > 0], [v < 0] and [v == 0], so that the loop body leaves [val_acc] as
    it was and raises nothing: the body of the rows loop gives the same
    result, glyphs and errors alike, as if the NaN cells were not in the row,
    and the row of the output holds the glyphs of the cells that are neither
    3 nor NaN. *)
Theorem nan_passes_filter_and_emits_nothing {A : Type} (self : BoardState A)
    (lines : list string) (i : nat) :
  (i < 8)%nat ->
  line_acc self = Ok lines ->
  (forall v : cell,
     In v (row_cells (board self) (Z.of_nat i)) <->
     In v (row_diagonal (board self) (Z.of_nat i))
     /\ ~ (exists q, v = Fin q /\ (q == 3)%Q))
  /\ filter is_nan (row_cells (board self) (Z.of_nat i)) =
     filter is_nan (row_diagonal (board self) (Z.of_nat i))
  /\ (forall val_acc : list string, cell_step val_acc NaN = Ok val_acc)
  /\ (forall acc : list string,
        row_step (board self) acc (Z.of_nat i) =
        (val_acc <- cells_loop
                      (filter (fun v => negb (is_nan v))
                         (row_cells (board self) (Z.of_nat i))) [] ;;
         Ok (append acc (frame (Z.of_nat i) val_acc))))
  /\ nth_error lines (S i) =
     Some (frame (Z.of_nat i)
             (flat_map glyph_spec
                (filter (fun v => negb (is_nan v))
                   (row_cells (board self) (Z.of_nat i))))).
Proof.
  intros Hi Hlines. split; [| split; [| split; [| split]]].
  - intros v. unfold row_cells. rewrite filter_In. unfold neb.
    rewrite negb_true_iff, <- not_true_iff_false.
    now rewrite (eqb_true_iff v 3).
  - unfold row_cells. apply nan_survives_filter.
  - reflexivity.
  - intros acc. rewrite cells_loop_skip_nan. reflexivity.
  - apply line_acc_Ok in Hlines as ->.
    rewrite nth_error_lines by exact Hi.
    unfold content_line. now rewrite glyphs_skip_nan.
Qed.

(** Printed row 3 of the initial Checkers board: three NaN cells around four
    empty ones. *)
Lemma nan_passes_filter_and_emits_nothing_witness :
  let self := mkBoardState (board_setup tt) tt in
  let lines := index :: map (content_line (board self)) (range 8) in
  (3 < 8)%nat
  /\ line_acc self = Ok lines
  /\ row_diagonal (board self) 3 =
     [NaN; Num 0; Num 0; Num 0; Num 0; NaN; NaN]
  /\ filter is_nan (row_cells (board self) 3) = [NaN; NaN; NaN]
  /\ row_step (board self) [] 3 = Ok [frame 3 [" "; " "; " "; " "]]
  /\ nth_error lines 4 = Some (frame 3 [" "; " "; " "; " "]).
Proof.
  assert (Hi : (3 < 8)%nat) by lia.
  assert (Hl : line_acc (mkBoardState (board_setup tt) tt) =
               Ok (index :: map (content_line (board_setup tt)) (range 8)))
    by (vm_compute; reflexivity).
  pose proof (nan_passes_filter_and_emits_nothing
                (mkBoardState (board_setup tt) tt) _ 3 Hi Hl)
    as (_ & Hnan & _ & Hstep & Hrow).
  split; [exact Hi | split; [exact Hl | split; [reflexivity |]]].
  split; [exact Hnan | split; [exact (Hstep []) | exact Hrow]].
Defined.

(** C10: every call of [board_setup] returns the same grid of 7 rows and 8
    columns, hence not a square one, with exactly 12 cells equal to 1, 12
    cells equal to -1, 8 cells equal to 0 and 24 NaN cells. *)
Theorem board_setup_grid :
  (forall call1 call2 : unit, board_setup call1 = board_setup call2)
  /\ shape (board_setup tt) = (7%nat, 8%nat)
  /\ rectangular (board_setup tt)
  /\ count_cells (fun v => eqb v 1) (board_setup tt) = 12%nat
  /\ count_cells (fun v => eqb v (-1)) (board_setup tt) = 12%nat
  /\ count_cells (fun v => eqb v 0) (board_setup tt) = 8%nat
  /\ count_cells is_nan (board_setup tt) = 24%nat
  /\ length (concat (board_setup tt)) = 56%nat.
Proof.
  split; [reflexivity |].
  split; [reflexivity |].
  split; [repeat constructor |].
  repeat split.
Qed.

(** * Properties of the move cache *)

Section CacheFacts.

Import MoveCache.

Variable State : Type.
Variable State_eq_dec : forall b1 b2 : State, {b1 = b2} + {b1 <> b2}.
Variable Move : Type.
Variable Error : Type.
Variable capacity : nat.
Variable raw_get_legal_moves : State -> outcome Error (list Move).

Local Abbreviation cached :=
  (get_legal_moves State_eq_dec capacity raw_get_legal_moves).
Local Abbreviation history :=
  (after_calls State_eq_dec capacity raw_get_legal_moves).
Local Abbreviation consistent := (MoveCache.consistent raw_get_legal_moves).

Lemma lookup_Some (c : cache State Move) (b : State) (moves : list Move) :
  lookup State State_eq_dec Move c b = Some moves -> In (b, moves) c.
Proof.
  unfold lookup.
  destruct (find (same_key State State_eq_dec Move b) c) as [[b' m] |] eqn:Hf;
    intros H; [| discriminate H].
  apply find_some in Hf as [Hin Hkey].
  unfold same_key in Hkey. simpl in Hkey.
  destruct (State_eq_dec b' b) as [-> |]; [| discriminate Hkey].
  simpl in H. inversion H; subst. exact Hin.
Qed.

Lemma firstn_incl {X : Type} (n : nat) (l : list X) (x : X) :
  In x (firstn n l) -> In x l.
Proof.
  revert l. induction n as [| n IH]; intros [| y l] H; simpl in H; auto.
  - contradiction.
  - destruct H as [-> | H]; [now left | right; now apply IH].
Qed.

Lemma consistent_nil : consistent [].
Proof.
  intros b moves H. contradiction.
Qed.

(** A consistent cache answers what the wrapped operation answers. *)
Lemma cached_fst (c : cache State Move) (b : State) :
  consistent c -> fst (cached c b) = raw_get_legal_moves b.
Proof.
  intros Hc. unfold get_legal_moves, cache_moves.
  destruct (lookup State State_eq_dec Move c b) as [moves |] eqn:Hl.
  - simpl. symmetry. apply Hc. now apply lookup_Some.
  - now destruct (raw_get_legal_moves b).
Qed.

(** A call keeps the cache consistent. *)
Lemma cached_consistent (c : cache State Move) (b : State) :
  consistent c -> consistent (snd (cached c b)).
Proof.
  intros Hc. unfold get_legal_moves, cache_moves.
  destruct (lookup State State_eq_dec Move c b) as [moves |] eqn:Hl.
  - simpl. intros b' m [H | H].
    + inversion H; subst. apply Hc. now apply lookup_Some.
    + unfold forget in H. apply filter_In in H as [H _]. now apply Hc.
  - destruct (raw_get_legal_moves b) as [moves | e] eqn:Hg; simpl.
    + intros b' m H. apply firstn_incl in H. destruct H as [H | H].
      * inversion H; subst. exact Hg.
      * now apply Hc.
    + exact Hc.
Qed.

Lemma history_consistent (c : cache State Move) (calls : list State) :
  consistent c -> consistent (history c calls).
Proof.
  revert c. induction calls as [| b rest IH]; intros c Hc; simpl.
  - exact Hc.
  - apply IH. now apply cached_consistent.
Qed.

Lemma same_result_refl (r : outcome Error (list Move)) : same_result r r.
Proof.
  destruct r; simpl; [intros m; reflexivity | reflexivity].
Qed.

(** The cache never holds more than [capacity] entries once it has been
    within the bound. *)
Lemma cached_bounded (c : cache State Move) (b : State) :
  (length c <= capacity)%nat -> (length (snd (cached c b)) <= capacity)%nat.
Proof.
  intros Hlen. unfold get_legal_moves, cache_moves.
  destruct (lookup State State_eq_dec Move c b) as [moves |] eqn:Hl.
  - simpl. apply lookup_Some in Hl.
    unfold forget.
    assert (Hlt : (length (filter (fun entry =>
                     negb (same_key State State_eq_dec Move b entry)) c)
                   < length c)%nat).
    { clear Hlen. induction c as [| entry c IH]; [contradiction |].
      simpl. destruct (same_key State State_eq_dec Move b entry) eqn:Hk; simpl.
      - pose proof (filter_length_le (fun entry =>
                      negb (same_key State State_eq_dec Move b entry)) c).
        lia.
      - destruct Hl as [-> | Hl].
        + unfold same_key in Hk. simpl in Hk.
          destruct (State_eq_dec b b); [discriminate | contradiction].
        + specialize (IH Hl). lia. }
    lia.
  - destruct (raw_get_legal_moves b); simpl; [| exact Hlen].
    destruct capacity as [| n]; simpl; [lia |].
    rewrite length_firstn. lia.
Qed.

End CacheFacts.

(** * The claims about the move cache *)

(** C1: after any history of calls of the cached method, it answers on every
    board state exactly what the unwrapped [get_legal_moves] answers when it
    is called directly: the same collection of move descriptors, a fortiori
    the same set. *)
Theorem cached_moves_transparent (State : Type)
    (State_eq_dec : forall b1 b2 : State, {b1 = b2} + {b1 <> b2})
    (Move Error : Type) (capacity : nat)
    (raw_get_legal_moves : State -> MoveCache.outcome Error (list Move))
    (calls : list State) (b : State) :
  let c :=
    MoveCache.after_calls State_eq_dec capacity raw_get_legal_moves [] calls in
  let answer :=
    fst (MoveCache.get_legal_moves State_eq_dec capacity
           raw_get_legal_moves c b) in
  MoveCache.same_result answer (raw_get_legal_moves b)
  /\ answer = raw_get_legal_moves b.
Proof.
  intros c answer.
  assert (H : answer = raw_get_legal_moves b).
  { apply cached_fst, history_consistent, consistent_nil. }
  split; [| exact H].
  rewrite H. apply same_result_refl.
Qed.

(** C8: when the wrapped computation raises on a board state, the cached
    method raises the same error and the cache is left exactly as it was
    before the call: no entry is stored for that board state. *)
Theorem failed_call_leaves_cache_unchanged (State : Type)
    (State_eq_dec : forall b1 b2 : State, {b1 = b2} + {b1 <> b2})
    (Move Error : Type) (capacity : nat)
    (raw_get_legal_moves : State -> MoveCache.outcome Error (list Move))
    (calls : list State) (b : State) (e : Error) :
  raw_get_legal_moves b = MoveCache.Raised e ->
  let c :=
    MoveCache.after_calls State_eq_dec capacity raw_get_legal_moves [] calls in
  MoveCache.get_legal_moves State_eq_dec capacity raw_get_legal_moves c b
    = (MoveCache.Raised e, c)
  /\ MoveCache.lookup State State_eq_dec Move c b = None.
Proof.
  intros Hraise c.
  assert (Hc : MoveCache.consistent raw_get_legal_moves c)
    by apply history_consistent, consistent_nil.
  assert (Hl : MoveCache.lookup State State_eq_dec Move c b = None).
  { destruct (MoveCache.lookup State State_eq_dec Move c b) as [moves |] eqn:Hl;
      [| reflexivity].
    apply lookup_Some, Hc in Hl. rewrite Hraise in Hl. discriminate Hl. }
  split; [| exact Hl].
  unfold MoveCache.get_legal_moves, MoveCache.cache_moves.
  now rewrite Hl, Hraise.
Qed.

(** A call history with hits, misses, an eviction and a failure, on a cache
    of two entries. *)
Lemma failed_call_leaves_cache_unchanged_witness :
  let raw (b : nat) : MoveCache.outcome string (list nat) :=
    match b with
    | O => MoveCache.Raised "no such position"
    | S _ => MoveCache.Returned [b; (b + 1)%nat]
    end in
  let c := MoveCache.after_calls Nat.eq_dec 2 raw [] [1; 0; 2; 1; 3]%nat in
  raw 0%nat = MoveCache.Raised "no such position"
  /\ c = [(3, [3; 4]); (1, [1; 2])]%nat
  /\ MoveCache.get_legal_moves Nat.eq_dec 2 raw c 0%nat
     = (MoveCache.Raised "no such position", c).
Proof.
  split; [reflexivity | split; [reflexivity |]].
  exact (proj1 (failed_call_leaves_cache_unchanged nat Nat.eq_dec nat string 2
           (fun b => match b with
                     | O => MoveCache.Raised "no such position"
                     | S _ => MoveCache.Returned [b; (b + 1)%nat]
                     end)
           [1; 0; 2; 1; 3]%nat 0%nat "no such position" eq_refl)).
Defined.

(** * Further properties of the renderer *)

(** ** When the renderer raises *)

Lemma forallb_false_exists {X : Type} (p : X -> bool) (l : list X) :
  forallb p l = false -> exists x, In x l /\ p x = false.
Proof.
  induction l as [| y l IH]; simpl; intros H.
  - discriminate H.
  - destruct (p y) eqn:Hy.
    + destruct (IH H) as (x & Hx & Hp). exists x. split; [now right | exact Hp].
    + exists y. split; [now left | exact Hy].
Qed.

Lemma In_range (n : nat) (i : Z) :
  In i (range n) <-> 0 <= i < Z.of_nat n.
Proof.
  unfold range. rewrite in_map_iff. split.
  - intros (k & <- & Hk). apply in_seq in Hk. lia.
  - intros Hi. exists (Z.to_nat i). split; [lia |]. apply in_seq. lia.
Qed.

Lemma inf_passes_filter (v : cell) : is_inf v = true -> neb v 3 = true.
Proof.
  destruct v; simpl; intros H; try discriminate H. reflexivity.
Qed.

(** The renderer raises exactly when one of the eight diagonals it reads
    holds an infinite cell, and what it raises then is the [OverflowError]
    of [int]; on every other board it returns. *)
Theorem repr_raises_iff_infinite_cell {A : Type} (self : BoardState A) :
  (_repr self = Raise OverflowError <->
   exists (i : Z) (v : cell),
     0 <= i < 8 /\ In v (row_diagonal (board self) i) /\ is_inf v = true)
  /\ ((exists s, _repr self = Ok s) <->
      forall (i : Z) (v : cell),
        0 <= i < 8 -> In v (row_diagonal (board self) i) -> is_inf v = false).
Proof.
  set (ok := forallb (fun i => forallb (fun v => negb (is_inf v))
                                 (row_cells (board self) i)) (range 8)).
  assert (Hyes : ok = true ->
                 _repr self = Ok (join (String LF EmptyString)
                   (index :: map (content_line (board self)) (range 8)))).
  { intros Hok. unfold _repr, line_acc.
    now rewrite (rows_loop_spec _ _ _ Hok). }
  assert (Hno : ok = false -> _repr self = Raise OverflowError).
  { intros Hok. destruct (_repr self) as [s | e] eqn:Hrepr.
    - unfold _repr in Hrepr.
      apply bind_Ok_inv in Hrepr as (lines & Hlines & _).
      unfold line_acc in Hlines. apply rows_loop_Ok in Hlines as [_ Hall].
      fold ok in Hall. congruence.
    - now rewrite (repr_Raise _ _ Hrepr). }
  assert (Hall : ok = true <->
                 forall i v, 0 <= i < 8 ->
                   In v (row_diagonal (board self) i) -> is_inf v = false).
  { unfold ok. rewrite forallb_forall. split.
    - intros H i v Hi Hv.
      assert (Hr : In i (range 8)) by (apply In_range; simpl; lia).
      specialize (H i Hr). rewrite forallb_forall in H.
      destruct (is_inf v) eqn:Hinf; [| reflexivity].
      assert (Hc : In v (row_cells (board self) i)).
      { unfold row_cells. apply filter_In.
        split; [exact Hv | now apply inf_passes_filter]. }
      specialize (H v Hc). now rewrite Hinf in H.
    - intros H i Hr. apply In_range in Hr. simpl in Hr.
      apply forallb_forall. intros v Hv.
      unfold row_cells in Hv. apply filter_In in Hv as [Hv _].
      now rewrite (H i v Hr Hv). }
  split; split.
  - intros Hraise. destruct ok eqn:Hok.
    + rewrite (Hyes eq_refl) in Hraise. discriminate Hraise.
    + apply forallb_false_exists in Hok as (i & Hi & Hrow).
      apply forallb_false_exists in Hrow as (v & Hv & Hinf).
      apply In_range in Hi. simpl in Hi.
      unfold row_cells in Hv. apply filter_In in Hv as [Hv _].
      exists i, v. repeat split; try lia; [exact Hv |].
      now apply negb_false_iff in Hinf.
  - intros (i & v & Hi & Hv & Hinf). apply Hno.
    destruct ok eqn:Hok; [| reflexivity].
    rewrite (proj1 Hall eq_refl i v Hi Hv) in Hinf. discriminate Hinf.
  - intros (s & Hs). apply Hall. destruct ok eqn:Hok; [reflexivity |].
    rewrite (Hno eq_refl) in Hs. discriminate Hs.
  - intros H. apply Hall in H. eexists. now apply Hyes.
Qed.

(** A two by two grid with an infinite cell on the main diagonal, which
    printed row 4 reads. *)
Lemma repr_raises_iff_infinite_cell_witness :
  let b := [ [Num 1; Num 0]; [Num 0; Inf false] ] in
  (exists (i : Z) (v : cell),
     0 <= i < 8 /\ In v (row_diagonal b i) /\ is_inf v = true)
  /\ _repr (mkBoardState b tt) = Raise OverflowError.
Proof.
  assert (H : exists (i : Z) (v : cell),
            0 <= i < 8
            /\ In v (row_diagonal [ [Num 1; Num 0]; [Num 0; Inf false] ] i)
            /\ is_inf v = true).
  { exists 4, (Inf false). repeat split; try lia. simpl. right. now left. }
  split; [exact H |].
  exact (proj2 (proj1 (repr_raises_iff_infinite_cell
           (mkBoardState [ [Num 1; Num 0]; [Num 0; Inf false] ] tt))) H).
Defined.

(** ** How long a printed row can be *)

Lemma diag_from_length (j width : nat) (rows : list (list cell)) :
  Forall (fun r => length r = width) rows ->
  length (diag_from j rows) = Nat.min (length rows) (width - j).
Proof.
  revert j.
  induction rows as [| r rs IH]; intros j Hrect.
  - reflexivity.
  - inversion Hrect as [| r' rs' Hr Hrs]; subst.
    cbn [diag_from length].
    destruct (nth_error r j) as [c |] eqn:Hc.
    + assert (Hj : (j < length r)%nat)
        by (apply nth_error_Some; congruence).
      cbn [length]. rewrite (IH _ Hrs). lia.
    + apply nth_error_None in Hc. cbn [length]. lia.
Qed.

(** On a rectangular grid of [R] rows and [C] columns, the diagonal read for
    printed row [i] has [min (R - (i - 4)) (C - (4 - i))] cells (subtractions
    truncated at 0): never more than the smaller side of the grid, and none
    at all once the offset leaves the grid. *)
Theorem row_diagonal_length (b : ndarray) (i : nat) :
  rectangular b ->
  length (row_diagonal b (Z.of_nat i)) =
  Nat.min (fst (shape b) - (i - 4)) (snd (shape b) - (4 - i)).
Proof.
  intros Hrect. unfold rectangular in Hrect. cbn [shape snd] in Hrect.
  unfold row_diagonal, diagonal.
  destruct (0 <=? 4 - Z.of_nat i) eqn:Hsign.
  - apply Z.leb_le in Hsign.
    rewrite (diag_from_length _ _ _ Hrect). cbn [shape fst snd].
    replace (i - 4)%nat with 0%nat by lia.
    replace (Z.to_nat (4 - Z.of_nat i)) with (4 - i)%nat by lia.
    now rewrite Nat.sub_0_r.
  - apply Z.leb_gt in Hsign.
    assert (Hskip : Forall (fun r => length r = snd (shape b))
                      (skipn (Z.to_nat (- (4 - Z.of_nat i))) b)).
    { apply Forall_forall. intros r Hr. apply In_skipn in Hr.
      rewrite Forall_forall in Hrect. now apply Hrect. }
    rewrite (diag_from_length _ _ _ Hskip), length_skipn. cbn [shape fst snd].
    replace (4 - i)%nat with 0%nat by lia.
    replace (Z.to_nat (- (4 - Z.of_nat i))) with (i - 4)%nat by lia.
    reflexivity.
Qed.

(** Printed row 7 of the initial Checkers board: four cells. *)
Lemma row_diagonal_length_witness :
  rectangular (board_setup tt)
  /\ length (row_diagonal (board_setup tt) 7) = 4%nat.
Proof.
  assert (Hr : rectangular (board_setup tt)) by repeat constructor.
  split; [exact Hr |].
  exact (row_diagonal_length (board_setup tt) 7 Hr).
Defined.

(** ** Where a grid cell is printed *)

(** On a rectangular grid, the cell at row [r] and column [c] with
    [-3 <= c - r <= 4] is read for printed row [4 - (c - r)], where it is the
    cell number [min r c] of the diagonal. *)
Theorem cell_is_read_on_row (b : ndarray) (r c : nat) (v : cell) :
  rectangular b ->
  cell_at b r c = Some v ->
  -3 <= Z.of_nat c - Z.of_nat r <= 4 ->
  0 <= 4 - (Z.of_nat c - Z.of_nat r) < 8
  /\ nth_error (row_diagonal b (4 - (Z.of_nat c - Z.of_nat r))) (Nat.min r c)
     = Some v.
Proof.
  intros Hrect Hcell Hoff. split; [lia |].
  unfold row_diagonal. rewrite (diagonal_nth_error _ _ _ Hrect).
  rewrite <- Hcell. f_equal; lia.
Qed.

(** The cell at row 5, column 2 of the initial Checkers board is cell
    number 2 of the diagonal read for printed row 7. *)
Lemma cell_is_read_on_row_witness :
  rectangular (board_setup tt)
  /\ cell_at (board_setup tt) 5 2 = Some (Num (-1))
  /\ -3 <= Z.of_nat 2 - Z.of_nat 5 <= 4
  /\ nth_error (row_diagonal (board_setup tt) 7) 2 = Some (Num (-1)).
Proof.
  assert (Hr : rectangular (board_setup tt)) by repeat constructor.
  assert (Hc : cell_at (board_setup tt) 5 2 = Some (Num (-1))) by reflexivity.
  assert (Ho : -3 <= Z.of_nat 2 - Z.of_nat 5 <= 4) by (simpl; lia).
  split; [exact Hr | split; [exact Hc | split; [exact Ho |]]].
  exact (proj2 (cell_is_read_on_row (board_setup tt) 5 2 _ Hr Hc Ho)).
Defined.

(** ** What the renderer never reads *)

Lemma nth_error_update {X : Type} (l : list X) (n m : nat) (x : X) :
  m <> n -> nth_error (update l n x) m = nth_error l m.
Proof.
  revert n m.
  induction l as [| y l IH]; intros [| n] [| m] H; simpl; try reflexivity.
  - contradiction.
  - apply IH. congruence.
Qed.

Lemma diag_from_set_cell (j r c : nat) (a : ndarray) (v : cell) :
  c <> (j + r)%nat -> diag_from j (set_cell a r c v) = diag_from j a.
Proof.
  revert j r.
  induction a as [| row rest IH]; intros j [| r] H; simpl; try reflexivity.
  - rewrite nth_error_update by lia. reflexivity.
  - destruct (nth_error row j); [| reflexivity].
    f_equal. apply IH. lia.
Qed.

Lemma skipn_set_cell (n r c : nat) (a : ndarray) (v : cell) :
  skipn n (set_cell a r c v) =
  if (r <? n)%nat then skipn n a else set_cell (skipn n a) (r - n) c v.
Proof.
  revert r a.
  induction n as [| n IH]; intros r a.
  - simpl. now rewrite Nat.sub_0_r.
  - destruct a as [| row rest]; destruct r as [| r]; simpl; try reflexivity.
    + now destruct (S r <? S n)%nat.
    + rewrite IH. reflexivity.
Qed.

(** A write off a diagonal leaves the diagonal as it was. *)
Lemma diagonal_set_cell (a : ndarray) (r c : nat) (v : cell) (offset : Z) :
  Z.of_nat c - Z.of_nat r <> offset ->
  diagonal (set_cell a r c v) offset = diagonal a offset.
Proof.
  intros H. unfold diagonal.
  destruct (0 <=? offset) eqn:Hsign.
  - apply Z.leb_le in Hsign. apply diag_from_set_cell. lia.
  - apply Z.leb_gt in Hsign. rewrite skipn_set_cell.
    destruct (r <? Z.to_nat (- offset))%nat eqn:Hr; [reflexivity |].
    apply Nat.ltb_ge in Hr. apply diag_from_set_cell. lia.
Qed.

(** The rows loop sees the board through the diagonals of its rows only. *)
Lemma rows_loop_ext (b1 b2 : ndarray) (rows : list Z) (acc : list string) :
  (forall i, In i rows -> row_diagonal b1 i = row_diagonal b2 i) ->
  rows_loop b1 rows acc = rows_loop b2 rows acc.
Proof.
  revert acc.
  induction rows as [| i rest IH]; intros acc H; simpl.
  - reflexivity.
  - unfold row_step. rewrite (H i (or_introl eq_refl)).
    destruct (cells_loop _ []) as [va |]; simpl; [| reflexivity].
    apply IH. intros k Hk. apply H. now right.
Qed.

(** Only the cells with [-3 <= column - row <= 4] can reach the output: a
    write to any other cell of the grid changes neither the string the
    renderer returns nor the error it raises. *)
Theorem cells_off_the_eight_diagonals_are_ignored {A : Type}
    (self : BoardState A) (r c : nat) (v : cell) :
  Z.of_nat c - Z.of_nat r < -3 \/ 4 < Z.of_nat c - Z.of_nat r ->
  _repr (mkBoardState (set_cell (board self) r c v) (attrs self)) = _repr self.
Proof.
  intros Hoff. unfold _repr, line_acc. cbn [board].
  rewrite (rows_loop_ext (set_cell (board self) r c v) (board self));
    [reflexivity |].
  intros i Hi. apply In_range in Hi. simpl in Hi.
  unfold row_diagonal. apply diagonal_set_cell. lia.
Qed.

(** A piece put on the corner cell of row 6, column 0 of the Checkers grid
    does not show. *)
Lemma cells_off_the_eight_diagonals_are_ignored_witness :
  let self := mkBoardState (board_setup tt) tt in
  (Z.of_nat 0 - Z.of_nat 6 < -3 \/ 4 < Z.of_nat 0 - Z.of_nat 6)
  /\ cell_at (set_cell (board self) 6 0 (Num 1)) 6 0 = Some (Num 1)
  /\ cell_at (board self) 6 0 = Some NaN
  /\ _repr (mkBoardState (set_cell (board self) 6 0 (Num 1)) tt) = _repr self.
Proof.
  assert (H : Z.of_nat 0 - Z.of_nat 6 < -3 \/ 4 < Z.of_nat 0 - Z.of_nat 6)
    by (left; simpl; lia).
  split; [exact H | split; [reflexivity | split; [reflexivity |]]].
  exact (cells_off_the_eight_diagonals_are_ignored
           (mkBoardState (board_setup tt) tt) 6 0 (Num 1) H).
Defined.

(** ** Off-board markers *)

Lemma diag_from_map (f : cell -> cell) (j : nat) (rows : list (list cell)) :
  diag_from j (map (map f) rows) = map f (diag_from j rows).
Proof.
  revert j.
  induction rows as [| r rs IH]; intros j; simpl.
  - reflexivity.
  - rewrite nth_error_map.
    destruct (nth_error r j); simpl; [now rewrite IH | reflexivity].
Qed.

Lemma diagonal_map (f : cell -> cell) (a : ndarray) (offset : Z) :
  diagonal (map (map f) a) offset = map f (diagonal a offset).
Proof.
  unfold diagonal. destruct (0 <=? offset).
  - apply diag_from_map.
  - rewrite skipn_map. apply diag_from_map.
Qed.

(** An off-board cell at the head of a line is as good as no cell. *)
Lemma cells_loop_off_board (v : cell) (line : list cell)
    (acc : list string) :
  off_board v = true ->
  cells_loop (filter (fun v => neb v 3) (v :: line)) acc =
  cells_loop (filter (fun v => neb v 3) line) acc.
Proof.
  unfold off_board, neb. intros H. simpl.
  destruct (eqb v 3) eqn:H3; simpl; [reflexivity |].
  rewrite orb_false_r in H. destruct v; try discriminate H. reflexivity.
Qed.

Lemma cells_loop_remark (f : cell -> cell) (line : list cell)
    (acc : list string) :
  (forall v, off_board v = true -> off_board (f v) = true) ->
  (forall v, off_board v = false -> f v = v) ->
  cells_loop (filter (fun v => neb v 3) (map f line)) acc =
  cells_loop (filter (fun v => neb v 3) line) acc.
Proof.
  intros Hoff Hfix. revert acc.
  induction line as [| v rest IH]; intros acc.
  - reflexivity.
  - cbn [map]. destruct (off_board v) eqn:Hv.
    + rewrite (cells_loop_off_board _ _ _ (Hoff v Hv)).
      rewrite (cells_loop_off_board _ _ _ Hv). apply IH.
    + rewrite (Hfix v Hv). cbn [filter].
      destruct (neb v 3); [| apply IH].
      cbn [cells_loop]. destruct (cell_step acc v); simpl;
        [apply IH | reflexivity].
Qed.

(** NaN and 3 are interchangeable as off-board markers: rewriting the cells
    of a board by a function that sends off-board cells to off-board cells
    and leaves every other cell alone changes nothing in the result. *)
Theorem off_board_markers_are_interchangeable {A : Type}
    (self : BoardState A) (f : cell -> cell) :
  (forall v, off_board v = true -> off_board (f v) = true) ->
  (forall v, off_board v = false -> f v = v) ->
  _repr (mkBoardState (map (map f) (board self)) (attrs self)) = _repr self.
Proof.
  intros Hoff Hfix. unfold _repr, line_acc. cbn [board].
  assert (H : forall rows acc,
            rows_loop (map (map f) (board self)) rows acc =
            rows_loop (board self) rows acc).
  { induction rows as [| i rest IH]; intros acc; simpl.
    - reflexivity.
    - unfold row_step, row_diagonal. rewrite diagonal_map.
      rewrite (cells_loop_remark f _ _ Hoff Hfix).
      destruct (cells_loop _ []) as [va |]; simpl; [apply IH | reflexivity]. }
  now rewrite H.
Qed.

(** The initial Checkers board with its NaN cells turned into 3. *)
Lemma off_board_markers_are_interchangeable_witness :
  let f (v : cell) := if is_nan v then Num 3 else v in
  (forall v, off_board v = true -> off_board (f v) = true)
  /\ (forall v, off_board v = false -> f v = v)
  /\ count_cells is_nan (map (map f) (board_setup tt)) = 0%nat
  /\ count_cells (fun v => eqb v 3) (map (map f) (board_setup tt)) = 24%nat
  /\ _repr (mkBoardState (map (map f) (board_setup tt)) tt) =
     _repr (mkBoardState (board_setup tt) tt).
Proof.
  set (f := fun v : cell => if is_nan v then Num 3 else v).
  assert (H1 : forall v, off_board v = true -> off_board (f v) = true).
  { intros v. unfold f, off_board. destruct v; simpl; auto. }
  assert (H2 : forall v, off_board v = false -> f v = v).
  { intros v. unfold f, off_board. destruct v; simpl; auto. discriminate. }
  split; [exact H1 | split; [exact H2 | split; [reflexivity |]]].
  split; [reflexivity |].
  exact (off_board_markers_are_interchangeable
           (mkBoardState (board_setup tt) tt) f H1 H2).
Defined.

(** ** Reading a glyph back *)

Lemma length_append (s t : string) :
  String.length (s +++ t) = (String.length s + String.length t)%nat.
Proof.
  induction s as [| c s IH]; simpl; [reflexivity | now rewrite IH].
Qed.

Lemma append_inj_r (s1 s2 t : string) : s1 +++ t = s2 +++ t -> s1 = s2.
Proof.
  revert s2.
  induction s1 as [| c1 s1 IH]; intros [| c2 s2] H; simpl in H.
  - reflexivity.
  - apply (f_equal String.length) in H. simpl in H.
    rewrite length_append in H. lia.
  - apply (f_equal String.length) in H. simpl in H.
    rewrite length_append in H. lia.
  - inversion H. f_equal. now apply IH.
Qed.

Lemma to_int_not_nil (z : Z) :
  Z.to_int z <> Decimal.Pos Decimal.Nil /\ Z.to_int z <> Decimal.Neg Decimal.Nil.
Proof.
  destruct z as [| p | p]; simpl; split; try discriminate;
    intros H; inversion H as [Hp];
    exact (Unsigned.to_uint_nonnil p Hp).
Qed.

(** Distinct integers have distinct decimal writings. *)
Lemma str_inj (a b : Z) : str a = str b -> a = b.
Proof.
  unfold str. intros H.
  apply (f_equal NilZero.int_of_string) in H.
  destruct (to_int_not_nil a) as [Ha1 Ha2].
  destruct (to_int_not_nil b) as [Hb1 Hb2].
  rewrite !NilZero.isi in H by assumption.
  inversion H as [H']. now apply DecimalZ.to_int_inj.
Qed.

Lemma int_of_zero (q : Q) : (q ?= 0)%Q = Eq -> Z.quot (Qnum q) (Z.pos (Qden q)) = 0.
Proof.
  intros H. apply Qeq_alt in H. unfold Qeq in H. simpl in H.
  rewrite Z.mul_1_r in H. rewrite H. reflexivity.
Qed.

Lemma int_of_positive (q : Q) :
  (q ?= 0)%Q = Gt -> 0 <= Z.quot (Qnum q) (Z.pos (Qden q)).
Proof.
  intros H. apply Qgt_alt in H. unfold Qlt in H. simpl in H.
  rewrite Z.mul_1_r in H. apply Z.quot_pos; lia.
Qed.

(** The glyph of a finite cell tells whose the cell is and how high the
    stack is: two finite cells that get the same glyph have the same sign
    and the same [abs(int(v))]. *)
Theorem glyph_determines_owner_and_height (q1 q2 : Q) (n1 n2 : Z) :
  int (Fin q1) = Ok n1 ->
  int (Fin q2) = Ok n2 ->
  cell_step [] (Fin q1) = cell_step [] (Fin q2) ->
  (q1 ?= 0)%Q = (q2 ?= 0)%Q /\ Z.abs n1 = Z.abs n2.
Proof.
  intros H1 H2. simpl in H1, H2. inversion H1 as [E1]. inversion H2 as [E2].
  rewrite !cell_step_spec by reflexivity.
  unfold glyph_spec. rewrite E1, E2. clear H1 H2.
  pose proof (int_of_zero q1) as Z1. pose proof (int_of_zero q2) as Z2.
  pose proof (int_of_positive q1) as P1. pose proof (int_of_positive q2) as P2.
  rewrite E1 in Z1, P1. rewrite E2 in Z2, P2.
  remember (str n1) as s1 eqn:Hs1. remember (str n2) as s2 eqn:Hs2.
  remember (str (Z.abs n1)) as a1 eqn:Ha1.
  remember (str (Z.abs n2)) as a2 eqn:Ha2.
  destruct (q1 ?= 0)%Q; destruct (q2 ?= 0)%Q; simpl; intros H;
    try discriminate H.
  - split; [reflexivity |]. now rewrite Z1, Z2.
  - split; [reflexivity |].
    inversion H as [H']. apply append_inj_r in H'. subst a1 a2.
    now apply str_inj.
  - split; [reflexivity |].
    inversion H as [H']. apply append_inj_r in H'. subst s1 s2.
    apply str_inj in H'. now rewrite H'.
Qed.

(** Two fractional values between 2 and 3 are both shown as a blue 2. *)
Lemma glyph_determines_owner_and_height_witness :
  int (Fin (5 # 2)) = Ok 2
  /\ int (Fin (7 # 3)) = Ok 2
  /\ cell_step [] (Fin (5 # 2)) = cell_step [] (Fin (7 # 3))
  /\ ((5 # 2) ?= 0)%Q = ((7 # 3) ?= 0)%Q.
Proof.
  assert (H1 : int (Fin (5 # 2)) = Ok 2) by reflexivity.
  assert (H2 : int (Fin (7 # 3)) = Ok 2) by reflexivity.
  assert (H : cell_step [] (Fin (5 # 2)) = cell_step [] (Fin (7 # 3)))
    by reflexivity.
  split; [exact H1 | split; [exact H2 | split; [exact H |]]].
  exact (proj1 (glyph_determines_owner_and_height (5 # 2) (7 # 3) 2 2 H1 H2 H)).
Defined.

(** The two players are drawn alike: a positive cell and its opposite get
    the same digits, in light blue for the one and in light yellow for the
    other. *)
Theorem same_digits_for_both_players (val_acc : list string) (q : Q) :
  (0 < q)%Q ->
  exists digits : string,
    cell_step val_acc (Fin q) =
      Ok (val_acc ++ [Fore.LIGHTBLUE_EX +++ digits +++ Fore.RESET])
    /\ cell_step val_acc (Fin (- q)) =
      Ok (val_acc ++ [Fore.LIGHTYELLOW_EX +++ digits +++ Fore.RESET]).
Proof.
  intros Hq.
  exists (str (Z.quot (Qnum q) (Z.pos (Qden q)))).
  rewrite !cell_step_spec by reflexivity. unfold glyph_spec.
  assert (Hneg : (- q < 0)%Q).
  { unfold Qlt in *. simpl in *. lia. }
  rewrite (proj1 (Qgt_alt q 0) Hq), (proj1 (Qlt_alt (- q) 0) Hneg).
  split; [reflexivity |].
  simpl. rewrite Z.quot_opp_l by discriminate.
  rewrite Z.abs_opp, Z.abs_eq; [reflexivity |].
  apply int_of_positive. now apply Qgt_alt.
Qed.

(** A stack of two of either player. *)
Lemma same_digits_for_both_players_witness :
  (0 < inject_Z 2)%Q
  /\ exists digits : string,
       cell_step [] (Num 2) =
         Ok [Fore.LIGHTBLUE_EX +++ digits +++ Fore.RESET]
       /\ cell_step [] (Fin (- inject_Z 2)) =
         Ok [Fore.LIGHTYELLOW_EX +++ digits +++ Fore.RESET].
Proof.
  assert (H : (0 < inject_Z 2)%Q) by reflexivity.
  split; [exact H |].
  exact (same_digits_for_both_players [] (inject_Z 2) H).
Defined.

(** ** How many glyphs a printed row holds *)

Lemma glyph_count_line (line : list cell) :
  length (flat_map glyph_spec (filter (fun v => neb v 3) line)) =
  length (filter shown line).
Proof.
  induction line as [| v rest IH]; [reflexivity |].
  cbn [filter]. destruct v as [| s | q].
  - exact IH.
  - exact IH.
  - assert (Hs : shown (Fin q) = neb (Fin q) 3) by reflexivity.
    rewrite Hs. destruct (neb (Fin q) 3); [| exact IH].
    cbn [flat_map length]. rewrite length_app, IH.
    unfold glyph_spec. now destruct (q ?= 0)%Q.
Qed.

Lemma glyphs_pair_with_shown_cells (line : list cell) :
  forallb (fun v => negb (is_inf v)) line = true ->
  Forall2 (fun v g => cell_step [] v = Ok [g])
    (filter shown line)
    (flat_map glyph_spec (filter (fun v => neb v 3) line)).
Proof.
  induction line as [| v rest IH]; intros Hfin.
  - constructor.
  - cbn [forallb] in Hfin. apply andb_true_iff in Hfin as [_ Hrest].
    specialize (IH Hrest).
    destruct v as [| s | q]; cbn [filter].
    + exact IH.
    + exact IH.
    + assert (Hs : shown (Fin q) = neb (Fin q) 3) by reflexivity.
      rewrite Hs. destruct (neb (Fin q) 3); [| exact IH].
      cbn [flat_map].
      assert (Hg : exists g, glyph_spec (Fin q) = [g])
        by (unfold glyph_spec; destruct (q ?= 0)%Q; eexists; reflexivity).
      destruct Hg as (g & Hg). rewrite Hg. cbn [app].
      constructor; [| exact IH].
      rewrite (cell_step_spec [] (Fin q)) by reflexivity.
      now rewrite Hg.
Qed.

(** When the renderer returns, printed row [i] is made of the glyphs
    [flat_map glyph_spec (row_cells ...)], and these pair off, one to one and
    in the order of the diagonal, with the finite cells of the diagonal that
    are not 3: each glyph is the one the loop body appends for its cell.  So
    the row holds as many glyphs as the diagonal has such cells. *)
Theorem one_glyph_per_shown_cell {A : Type} (self : BoardState A)
    (lines : list string) (i : nat) :
  (i < 8)%nat ->
  line_acc self = Ok lines ->
  nth_error lines (S i) =
    Some (frame (Z.of_nat i)
            (flat_map glyph_spec (row_cells (board self) (Z.of_nat i))))
  /\ Forall2 (fun v g => cell_step [] v = Ok [g])
       (filter shown (row_diagonal (board self) (Z.of_nat i)))
       (flat_map glyph_spec (row_cells (board self) (Z.of_nat i)))
  /\ length (flat_map glyph_spec (row_cells (board self) (Z.of_nat i))) =
     length (filter shown (row_diagonal (board self) (Z.of_nat i)))
  /\ (length (flat_map glyph_spec (row_cells (board self) (Z.of_nat i)))
      <= length (row_diagonal (board self) (Z.of_nat i)))%nat.
Proof.
  intros Hi Hlines.
  assert (Hfin : forallb (fun v => negb (is_inf v))
                   (row_diagonal (board self) (Z.of_nat i)) = true).
  { unfold line_acc in Hlines. apply rows_loop_Ok in Hlines as [_ Hall].
    rewrite forallb_forall in Hall.
    assert (Hr : In (Z.of_nat i) (range 8)) by (apply In_range; simpl; lia).
    specialize (Hall _ Hr). rewrite forallb_forall in Hall.
    apply forallb_forall. intros v Hv.
    destruct (is_inf v) eqn:Hinf; [| reflexivity].
    assert (Hc : In v (row_cells (board self) (Z.of_nat i))).
    { unfold row_cells. apply filter_In.
      split; [exact Hv | now apply inf_passes_filter]. }
    specialize (Hall v Hc). now rewrite Hinf in Hall. }
  split; [| split; [| split]].
  - apply line_acc_Ok in Hlines as ->. now rewrite nth_error_lines.
  - unfold row_cells. now apply glyphs_pair_with_shown_cells.
  - unfold row_cells. apply glyph_count_line.
  - unfold row_cells. rewrite glyph_count_line. apply filter_length_le.
Qed.

(** A grid of two rows whose main diagonal, read for printed row 4, holds a
    stack of one and a stack of two of the other player: two shown cells,
    two glyphs. *)
Lemma one_glyph_per_shown_cell_witness :
  let b := [ [Num 1; Num 3]; [Num 3; Num (-2)] ] in
  let lines := index :: map (content_line b) (range 8) in
  (4 < 8)%nat
  /\ line_acc (mkBoardState b tt) = Ok lines
  /\ filter shown (row_diagonal b 4) = [Num 1; Num (-2)]
  /\ flat_map glyph_spec (row_cells b 4) =
     [ Fore.LIGHTBLUE_EX +++ "1" +++ Fore.RESET;
       Fore.LIGHTYELLOW_EX +++ "2" +++ Fore.RESET ]
  /\ nth_error lines 5 = Some (frame 4 (flat_map glyph_spec (row_cells b 4)))
  /\ length (flat_map glyph_spec (row_cells b 4)) =
     length (filter shown (row_diagonal b 4)).
Proof.
  set (b := [ [Num 1; Num 3]; [Num 3; Num (-2)] ]).
  assert (Hi : (4 < 8)%nat) by lia.
  assert (Hl : line_acc (mkBoardState b tt) =
               Ok (index :: map (content_line b) (range 8)))
    by (vm_compute; reflexivity).
  pose proof (one_glyph_per_shown_cell (mkBoardState b tt) _ 4 Hi Hl)
    as (Hrow & _ & Hlen & _).
  split; [exact Hi | split; [exact Hl | split; [reflexivity |]]].
  split; [reflexivity | split; [exact Hrow | exact Hlen]].
Defined.

(** ** A board with nothing to show *)

Lemma cells_loop_all_off_board (line : list cell) (acc : list string) :
  (forall v, In v line -> off_board v = true) ->
  cells_loop (filter (fun v => neb v 3) line) acc = Ok acc.
Proof.
  induction line as [| v rest IH]; intros H.
  - reflexivity.
  - rewrite cells_loop_off_board by (apply H; now left).
    apply IH. intros w Hw. apply H. now right.
Qed.

Lemma rows_loop_nothing_shown (b : ndarray) (rows : list Z)
    (acc : list string) :
  (forall i v, In i rows -> In v (row_diagonal b i) -> off_board v = true) ->
  rows_loop b rows acc = Ok (acc ++ map (fun i => frame i []) rows).
Proof.
  revert acc.
  induction rows as [| i rest IH]; intros acc H; simpl.
  - now rewrite List.app_nil_r.
  - unfold row_step.
    rewrite cells_loop_all_off_board
      by (intros v Hv; apply (H i v); [now left | exact Hv]).
    simpl. rewrite IH by (intros k v Hk Hv; apply (H k v); [now right | exact Hv]).
    unfold append. now rewrite <- List.app_assoc.
Qed.

(** A board whose eight diagonals hold nothing but off-board cells, the
    empty grid among them, is not refused: the renderer returns the header
    and eight rows that show the row number and one block each. *)
Theorem board_with_nothing_to_show {A : Type} (self : BoardState A) :
  (forall (i : Z) (v : cell),
     0 <= i < 8 -> In v (row_diagonal (board self) i) -> off_board v = true) ->
  _repr self =
  Ok (join (String LF EmptyString)
        [ "  0 1 2 3 4 5 6 7";
          "0 " +++ BLOCK +++ " "; "1  " +++ BLOCK;
          "2 " +++ BLOCK +++ " "; "3  " +++ BLOCK;
          "4 " +++ BLOCK +++ " "; "5  " +++ BLOCK;
          "6 " +++ BLOCK +++ " "; "7  " +++ BLOCK ]).
Proof.
  intros H. unfold _repr, line_acc.
  rewrite rows_loop_nothing_shown.
  - reflexivity.
  - intros i v Hi Hv. apply In_range in Hi. simpl in Hi. now apply (H i v).
Qed.

Lemma nothing_shown_check (b : ndarray) :
  forallb (fun i => forallb off_board (row_diagonal b i)) (range 8) = true ->
  forall (i : Z) (v : cell),
    0 <= i < 8 -> In v (row_diagonal b i) -> off_board v = true.
Proof.
  intros H i v Hi Hv. rewrite forallb_forall in H.
  assert (Hr : In i (range 8)) by (apply In_range; simpl; lia).
  specialize (H i Hr). rewrite forallb_forall in H. now apply H.
Qed.

(** A grid of eight rows and eight columns full of NaN, but for a 3 at row
    2, column 3 and a stack of five at row 7, column 0, which no printed row
    reads; and the empty grid. *)
Lemma board_with_nothing_to_show_witness :
  let b := set_cell (set_cell (repeat (repeat NaN 8) 8) 2 3 (Num 3))
             7 0 (Num 5) in
  row_diagonal b 3 = [NaN; NaN; Num 3; NaN; NaN; NaN; NaN]
  /\ cell_at b 7 0 = Some (Num 5)
  /\ (forall (i : Z) (v : cell),
        0 <= i < 8 -> In v (row_diagonal b i) -> off_board v = true)
  /\ _repr (mkBoardState b tt) = _repr (mkBoardState [] tt)
  /\ exists s, _repr (mkBoardState b tt) = Ok s
               /\ length (split_lines s) = 9%nat.
Proof.
  set (b := set_cell (set_cell (repeat (repeat NaN 8) 8) 2 3 (Num 3))
              7 0 (Num 5)).
  assert (H : forall (i : Z) (v : cell),
            0 <= i < 8 -> In v (row_diagonal b i) -> off_board v = true)
    by (apply nothing_shown_check; reflexivity).
  assert (H0 : forall (i : Z) (v : cell),
            0 <= i < 8 -> In v (row_diagonal [] i) -> off_board v = true)
    by (apply nothing_shown_check; reflexivity).
  split; [reflexivity | split; [reflexivity | split; [exact H |]]].
  split.
  - rewrite (board_with_nothing_to_show (mkBoardState b tt) H).
    rewrite (board_with_nothing_to_show (mkBoardState [] tt) H0).
    reflexivity.
  - eexists. split.
    + exact (board_with_nothing_to_show (mkBoardState b tt) H).
    + reflexivity.
Defined.
